(** * Rasterizer tools: bounding boxes, signed areas, barycentric
      coordinates, attribute interpolation and texture look-up

    A shallow embedding of [src/rasterizeTools.h].  The header is written
    over C++ [float], with a few [double] intermediates (the literals [0.5]
    and [1.0] promote their expressions to [double]) and a little [int]
    arithmetic in the texture look-up.  The functions are embedded once,
    generically over an interface [FloatOps] that names exactly the
    arithmetic the header uses; the interface is then instantiated twice:

    - [ExactOps]: [float] and [double] are the rationals [Q] and every
      conversion is the identity.  This is the arithmetic in which the
      geometric properties of the header are stated; rounding is not part
      of it, and on the machine those properties hold up to rounding.
    - [IEEEOps]: [float] is IEEE-754 binary32 and [double] is binary64, as
      specified by [SpecFloat] of the standard library, with rounding to
      nearest even.  This is the arithmetic in which signed zeros,
      infinities and NaN exist.

    [multiplyMV] is embedded with the matrix-vector product of glm, of
    which it is a plain call. *)

From Stdlib Require Import ZArith QArith Qminmax Qabs Qround Lia Lra Psatz Bool List Permutation.
From Stdlib Require Import Strings.Byte.
From Stdlib Require Import Floats.SpecFloat.
Import ListNotations.

Set Implicit Arguments.

(** ** Undefined behaviour as an error monad

    [None] stands for a computation whose behaviour C++ leaves undefined
    (signed overflow, remainder by zero, a conversion out of range, a read
    outside the buffer). *)

Definition bind {A B : Type} (m : option A) (k : A -> option B) : option B :=
  match m with
  | Some a => k a
  | None => None
  end.

Notation "x <- m ;; k" := (bind m (fun x => k))
  (at level 61, m at next level, right associativity).

(** ** The 32-bit [int] of the header *)

Definition INT_MIN : Z := -2147483648.
Definition INT_MAX : Z := 2147483647.

Definition in_int (n : Z) : bool := (INT_MIN <=? n)%Z && (n <=? INT_MAX)%Z.

Definition to_int (n : Z) : option Z := if in_int n then Some n else None.

Definition int_add (a b : Z) : option Z := to_int (a + b).
Definition int_mul (a b : Z) : option Z := to_int (a * b).

(** [a % b]: the remainder of the division truncated towards zero. *)
Definition int_rem (a b : Z) : option Z :=
  if (b =? 0)%Z then None
  else if (a =? INT_MIN)%Z && (b =? -1)%Z then None
  else Some (Z.rem a b).

(** [p[k]] for a buffer of [unsigned char]. *)
Definition read (p : list byte) (k : Z) : option byte :=
  if (k <? 0)%Z then None else nth_error p (Z.to_nat k).

(** The integral promotion of an [unsigned char]. *)
Definition uchar_to_int (b : byte) : Z := Z.of_N (Byte.to_N b).

(** ** The arithmetic the header relies on *)

Class FloatOps : Type := {
  float : Type;
  double : Type;
  (* float arithmetic and comparison *)
  fadd : float -> float -> float;
  fsub : float -> float -> float;
  fmul : float -> float -> float;
  fdiv : float -> float -> float;
  fleb : float -> float -> bool;
  (* [min] and [max] on two floats, from the CUDA headers *)
  fmin : float -> float -> float;
  fmax : float -> float -> float;
  (* double arithmetic *)
  dsub : double -> double -> double;
  dmul : double -> double -> double;
  (* the double literals 0.5 and 1.0 *)
  d0_5 : double;
  d1_0 : double;
  (* conversions: float to double, double to float, int to float, and the
     cast of a float to an integer, truncating; [None] when the value has no
     integer part (infinity, NaN) *)
  f2d : float -> double;
  d2f : double -> float;
  i2f : Z -> float;
  f2i : float -> option Z
}.

Declare Scope flt_scope.
Delimit Scope flt_scope with flt.
Infix "+" := fadd : flt_scope.
Infix "-" := fsub : flt_scope.
Infix "*" := fmul : flt_scope.
Infix "/" := fdiv : flt_scope.
Infix "<=?" := fleb : flt_scope.
Notation "a >=? b" := (fleb b a) (at level 70, no associativity) : flt_scope.

(** Fixed-size arrays [T a[3]]. *)
Record arr3 (A : Type) : Type := Arr3 { idx0 : A; idx1 : A; idx2 : A }.

Notation "a .[0]" := (idx0 a) (at level 1, format "a .[0]").
Notation "a .[1]" := (idx1 a) (at level 1, format "a .[1]").
Notation "a .[2]" := (idx2 a) (at level 1, format "a .[2]").

Section RasterizeTools.

Context {ops : FloatOps}.
Local Open Scope flt_scope.

(** A float literal with an integer value, such as [0.f], [1.f] or [255.f],
    and the [int] literal [0] converted to float. *)
Definition flit (n : Z) : float := i2f n.

(** *** The vectors of glm *)

Record vec2 : Type := Vec2 { x2 : float; y2 : float }.
Record vec3 : Type := Vec3 { x3 : float; y3 : float; z3 : float }.

(** [glm::vec3(a, s)] from a [vec2] and a scalar. *)
Definition vec3_of_vec2 (a : vec2) (s : float) : vec3 := Vec3 (x2 a) (y2 a) s.


Record AABB : Type := MkAABB { aabb_min : vec3; aabb_max : vec3 }.

(** *** The functions of the header *)

Definition getAABBForTriangle (tri : arr3 vec3) : AABB :=
  MkAABB
    (Vec3 (fmin (fmin (x3 tri.[0]) (x3 tri.[1])) (x3 tri.[2]))
          (fmin (fmin (y3 tri.[0]) (y3 tri.[1])) (y3 tri.[2]))
          (fmin (fmin (z3 tri.[0]) (z3 tri.[1])) (z3 tri.[2])))
    (Vec3 (fmax (fmax (x3 tri.[0]) (x3 tri.[1])) (x3 tri.[2]))
          (fmax (fmax (y3 tri.[0]) (y3 tri.[1])) (y3 tri.[2]))
          (fmax (fmax (z3 tri.[0]) (z3 tri.[1])) (z3 tri.[2]))).

(** The float expression is promoted to double by the literal [0.5] and the
    product is converted back by the [float] return type. *)
Definition calculateSignedArea (tri : arr3 vec3) : float :=
  d2f (dmul d0_5
        (f2d ((x3 tri.[2] - x3 tri.[0]) * (y3 tri.[1] - y3 tri.[0])
              - (x3 tri.[1] - x3 tri.[0]) * (y3 tri.[2] - y3 tri.[0])))).

Definition calculateBarycentricCoordinateValue
    (a b c : vec2) (tri : arr3 vec3) : float :=
  let baryTri :=
    Arr3 (vec3_of_vec2 a (flit 0)) (vec3_of_vec2 b (flit 0))
         (vec3_of_vec2 c (flit 0)) in
  calculateSignedArea baryTri / calculateSignedArea tri.

Definition calculateBarycentricCoordinate
    (tri : arr3 vec3) (point : vec2) : vec3 :=
  let beta :=
    calculateBarycentricCoordinateValue
      (Vec2 (x3 tri.[0]) (y3 tri.[0])) point
      (Vec2 (x3 tri.[2]) (y3 tri.[2])) tri in
  let gamma :=
    calculateBarycentricCoordinateValue
      (Vec2 (x3 tri.[0]) (y3 tri.[0]))
      (Vec2 (x3 tri.[1]) (y3 tri.[1])) point tri in
  let alpha := d2f (dsub (dsub d1_0 (f2d beta)) (f2d gamma)) in
  Vec3 alpha beta gamma.

Definition isBarycentricCoordInBounds (barycentricCoord : vec3) : bool :=
  (x3 barycentricCoord >=? flit 0) && (x3 barycentricCoord <=? flit 1) &&
  (y3 barycentricCoord >=? flit 0) && (y3 barycentricCoord <=? flit 1) &&
  (z3 barycentricCoord >=? flit 0) && (z3 barycentricCoord <=? flit 1).

Definition getZAtCoordinate (barycentricCoord : vec3) (tri : arr3 vec3) : float :=
  x3 barycentricCoord * z3 tri.[0]
  + y3 barycentricCoord * z3 tri.[1]
  + z3 barycentricCoord * z3 tri.[2].


(** [(int)f]: the truncation of [f], undefined outside the range of [int]. *)
Definition int_of_float (f : float) : option Z := n <- f2i f ;; to_int n.

(** [p[k] / 255.f]: the byte is promoted to [int], then converted to float. *)
Definition channel (p : list byte) (k : Z) : option float :=
  b <- read p k ;; Some (i2f (uchar_to_int b) / flit 255).

(** [(int)(n * t) % n], the texel column or row of line 120 or 121: the
    [int] is converted to float for the product, the product is truncated. *)
Definition texel_coord (n : Z) (t : float) : option Z :=
  f <- int_of_float (i2f n * t) ;; int_rem f n.

(** Lines 120 to 122: [x], [y] and [index = x + y * w]. *)
Definition texel_index (texcoord : vec2) (w h : Z) : option Z :=
  x <- texel_coord w (x2 texcoord) ;;
  y <- texel_coord h (y2 texcoord) ;;
  yw <- int_mul y w ;;
  int_add x yw.

Definition getColorFromTextureData
    (pTextureData : list byte) (texcoord : vec2) (w h stride : Z)
    : option vec3 :=
  index <- texel_index texcoord w h ;;
  k <- int_mul index stride ;;
  r <- channel pTextureData k ;;
  k1 <- int_add k 1 ;;
  g <- channel pTextureData k1 ;;
  k2 <- int_add k 2 ;;
  b <- channel pTextureData k2 ;;
  Some (Vec3 r g b).


(** The screen position of a vertex, as callers pass it for [point]. *)
Definition xy (v : vec3) : vec2 := Vec2 (x3 v) (y3 v).

(** A vector as the list of its components. *)
Definition components (v : vec3) : list float := [x3 v; y3 v; z3 v].

End RasterizeTools.

Arguments vec2 : clear implicits.
Arguments vec3 : clear implicits.
Arguments AABB : clear implicits.

(** *** The matrix-vector product

    [multiplyMV] is [glm::vec3(m * v)].  A [glm::mat4] is four columns
    [m[0]] to [m[3]], each a [glm::vec4]; the product of glm multiplies each
    column by one component of [v] and adds the four in two pairs; the
    conversion to [vec3] drops the fourth component. *)

Section Transform.

Context {ops : FloatOps}.
Local Open Scope flt_scope.

Record vec4 : Type := Vec4 { x4 : float; y4 : float; z4 : float; w4 : float }.
Record mat4 : Type := Mat4 { col0 : vec4; col1 : vec4; col2 : vec4; col3 : vec4 }.

(** [c * vec4(s)] and [a + b], component by component. *)
Definition scale4 (c : vec4) (s : float) : vec4 :=
  Vec4 (x4 c * s) (y4 c * s) (z4 c * s) (w4 c * s).
Definition add4 (a b : vec4) : vec4 :=
  Vec4 (x4 a + x4 b) (y4 a + y4 b) (z4 a + z4 b) (w4 a + w4 b).

(** [m * v]. *)
Definition mat4_mul_vec4 (m : mat4) (v : vec4) : vec4 :=
  let Mul0 := scale4 (col0 m) (x4 v) in
  let Mul1 := scale4 (col1 m) (y4 v) in
  let Add0 := add4 Mul0 Mul1 in
  let Mul2 := scale4 (col2 m) (z4 v) in
  let Mul3 := scale4 (col3 m) (w4 v) in
  let Add1 := add4 Mul2 Mul3 in
  add4 Add0 Add1.

(** [glm::vec3(v)]. *)
Definition vec3_of_vec4 (v : vec4) : vec3 ops := Vec3 (x4 v) (y4 v) (z4 v).

Definition multiplyMV (m : mat4) (v : vec4) : vec3 ops :=
  vec3_of_vec4 (mat4_mul_vec4 m v).

End Transform.

Arguments vec4 : clear implicits.
Arguments mat4 : clear implicits.

(** ** Exact arithmetic

    [float] and [double] are both [Q]; conversions lose nothing.  Division
    by zero has no value in exact arithmetic ([Qdiv] returns 0 there), so
    statements that divide assume a non-zero divisor. *)

Module ExactOps.

(** The integer part of a rational, rounding towards zero. *)
Definition Qtrunc (q : Q) : Z := Z.quot (Qnum q) (Zpos (Qden q)).

Definition ops : FloatOps := {|
  float := Q;
  double := Q;
  fadd := Qplus;
  fsub := Qminus;
  fmul := Qmult;
  fdiv := Qdiv;
  fleb := Qle_bool;
  fmin := Qmin;
  fmax := Qmax;
  dsub := Qminus;
  dmul := Qmult;
  d0_5 := 1 # 2;
  d1_0 := 1;
  f2d := fun q => q;
  d2f := fun q => q;
  i2f := inject_Z;
  f2i := fun q => Some (Qtrunc q)
|}.

(** Equality of vectors, component by component. *)
Definition vec3_eq (a b : vec3 ops) : Prop :=
  x3 a == x3 b /\ y3 a == y3 b /\ z3 a == z3 b.

End ExactOps.

(** ** IEEE-754 arithmetic

    [float] is binary32 and [double] is binary64, both carried by
    [spec_float]; every operation rounds to nearest, ties to even, and no
    product and sum are fused. *)

Module IEEEOps.

Definition prec32 : Z := 24.
Definition emax32 : Z := 128.
Definition prec64 : Z := 53.
Definition emax64 : Z := 1024.

(** Conversion of a value to the format [(prec, emax)]. *)
Definition convert (prec emax : Z) (x : spec_float) : spec_float :=
  match x with
  | S754_finite s m e => binary_round prec emax s m e
  | _ => x
  end.

Definition of_int (n : Z) : spec_float :=
  binary_normalize prec32 emax32 n 0 false.

(** The integer part of a float, rounding towards zero. *)
Definition truncate (x : spec_float) : option Z :=
  match x with
  | S754_zero _ => Some 0%Z
  | S754_finite s m e => Some (cond_Zopp s (Z.shiftl (Zpos m) e))
  | S754_infinity _ | S754_nan => None
  end.

(** [min(float, float)] of the CUDA headers is [fminf]: the lesser
    argument, and the other argument when one of them is NaN. *)
Definition fminf (a b : spec_float) : spec_float :=
  match a, b with
  | S754_nan, _ => b
  | _, S754_nan => a
  | _, _ => if SFltb b a then b else a
  end.

(** [max(float, float)] of the CUDA headers is [fmaxf]: the greater
    argument, and the other argument when one of them is NaN. *)
Definition fmaxf (a b : spec_float) : spec_float :=
  match a, b with
  | S754_nan, _ => b
  | _, S754_nan => a
  | _, _ => if SFltb a b then b else a
  end.

Definition ops : FloatOps := {|
  float := spec_float;
  double := spec_float;
  fadd := SFadd prec32 emax32;
  fsub := SFsub prec32 emax32;
  fmul := SFmul prec32 emax32;
  fdiv := SFdiv prec32 emax32;
  fleb := SFleb;
  fmin := fminf;
  fmax := fmaxf;
  dsub := SFsub prec64 emax64;
  dmul := SFmul prec64 emax64;
  d0_5 := binary_normalize prec64 emax64 1 (-1) false;
  d1_0 := binary_normalize prec64 emax64 1 0 false;
  f2d := convert prec64 emax64;
  d2f := convert prec32 emax32;
  i2f := of_int;
  f2i := truncate
|}.

(** The value [m * 2^e] as a float, for writing down inputs. *)
Definition mk (m e : Z) : spec_float := binary_normalize prec32 emax32 m e false.

Definition is_zero (x : spec_float) : bool :=
  match x with S754_zero _ => true | _ => false end.

(** Neither an infinity nor NaN. *)
Definition is_finite (x : spec_float) : bool :=
  match x with S754_zero _ | S754_finite _ _ _ => true | _ => false end.

(** The rational a float stands for; infinities and NaN stand for none. *)
Definition SF2Q (x : spec_float) : option Q :=
  match x with
  | S754_zero _ => Some 0
  | S754_finite s m e =>
      Some (match e with
            | Zneg k => cond_Zopp s (Zpos m) # (2 ^ k)
            | _ => inject_Z (cond_Zopp s (Zpos m) * 2 ^ e)
            end)
  | S754_infinity _ | S754_nan => None
  end.

(** A well-formed binary32 value: its mantissa and exponent are those of
    the format. *)
Definition valid32 (x : spec_float) : Prop :=
  valid_binary prec32 emax32 x = true.

(** A float that stands for a rational in the closed interval from 0 to 1;
    infinities and NaN do not. *)
Definition SF_in_unit (x : spec_float) : Prop :=
  exists q : Q, SF2Q x = Some q /\ 0 <= q <= 1.

End IEEEOps.

(** ** Vocabulary of the properties *)

Module Geometry.

Import ExactOps.


(** Two triangles with the same projection on the (x, y) plane. *)
Definition same_xy {o : FloatOps} (s t : arr3 (vec3 o)) : Prop :=
  x3 s.[0] = x3 t.[0] /\ y3 s.[0] = y3 t.[0] /\
  x3 s.[1] = x3 t.[1] /\ y3 s.[1] = y3 t.[1] /\
  x3 s.[2] = x3 t.[2] /\ y3 s.[2] = y3 t.[2].


(** [m] is the least of [a], [b], [c]. *)
Definition is_min3 (m a b c : Q) : Prop :=
  (m <= a /\ m <= b /\ m <= c) /\ (m == a \/ m == b \/ m == c).

(** [m] is the greatest of [a], [b], [c]. *)
Definition is_max3 (m a b c : Q) : Prop :=
  (a <= m /\ b <= m /\ c <= m) /\ (m == a \/ m == b \/ m == c).

Definition vec3_le (a b : vec3 ops) : Prop :=
  x3 a <= x3 b /\ y3 a <= y3 b /\ z3 a <= z3 b.

Definition aabb_eq (a b : AABB ops) : Prop :=
  vec3_eq (aabb_min a) (aabb_min b) /\ vec3_eq (aabb_max a) (aabb_max b).

(** A weight in the closed interval from 0 to 1. *)
Definition in_unit (q : Q) : Prop := 0 <= q <= 1.

(** A byte divided by 255. *)
Definition normalized (b : byte) : Q := inject_Z (uchar_to_int b) / 255.

(** The texture look-up as the specification words it: the texel is
    [x = floor(width * u) mod width], [y = floor(height * v) mod height],
    its flat index is [x + y * width], and the color is made of the
    [channelStride] consecutive bytes from offset [index * channelStride],
    each divided by 255. *)
Definition sampleTexture_spec
    (data : list byte) (u v : Q) (w h stride : Z) : list Q :=
  let x := (Qfloor (inject_Z w * u) mod w)%Z in
  let y := (Qfloor (inject_Z h * v) mod h)%Z in
  let index := (x + y * w)%Z in
  map normalized
      (firstn (Z.to_nat stride) (skipn (Z.to_nat (index * stride)) data)).

(** The claim that the look-up returns what the specification words. *)
Definition lookup_matches_spec
    (data : list byte) (u v : Q) (w h stride : Z) : Prop :=
  exists c : vec3 ops,
    getColorFromTextureData data (Vec2 (ops := ops) u v) w h stride = Some c /\
    Forall2 Qeq (components c) (sampleTexture_spec data u v w h stride).











Definition same_xyz {o : FloatOps} (a b : vec4 o) : Prop :=
  x4 a = x4 b /\ y4 a = y4 b /\ z4 a = z4 b.

Definition same_upper_rows {o : FloatOps} (m n : mat4 o) : Prop :=
  same_xyz (col0 m) (col0 n) /\ same_xyz (col1 m) (col1 n) /\
  same_xyz (col2 m) (col2 n) /\ same_xyz (col3 m) (col3 n).


End Geometry.

(** ** Concrete inputs *)

Module Inputs.

Import ExactOps.

Definition qvec (a b c : Q) : vec3 ops := Vec3 (ops := ops) a b c.

(** The triangle of the bounding-box example: (0,0,0), (4,0,1), (2,3,2). *)
Definition tri_a : arr3 (vec3 ops) :=
  Arr3 (qvec 0 0 0) (qvec 4 0 1) (qvec 2 3 2).

(** The same vertices in another order. *)
Definition tri_a_swapped : arr3 (vec3 ops) :=
  Arr3 (qvec 4 0 1) (qvec 0 0 0) (qvec 2 3 2).

(** The same triangle with other depths. *)
Definition tri_a_deep : arr3 (vec3 ops) :=
  Arr3 (qvec 0 0 7) (qvec 4 0 (-3)) (qvec 2 3 (1 # 2)).


Definition point_a : vec2 ops := Vec2 (ops := ops) 2 1.


Definition tex_rgb : list byte :=
  [x0a; x14; x1e; x28; x32; x3c; x46; x50; x5a; x64; x6e; xff]%byte.

(** A float triangle whose three vertices lie on the line y = x, a query
    point, and a vector of weights. *)
Definition fvec (a b c : Z) : vec3 IEEEOps.ops :=
  Vec3 (ops := IEEEOps.ops) (IEEEOps.of_int a) (IEEEOps.of_int b)
       (IEEEOps.of_int c).
Definition ftri_line : arr3 (vec3 IEEEOps.ops) :=
  Arr3 (fvec 1 1 0) (fvec 2 2 1) (fvec 3 3 2).
Definition fpoint : vec2 IEEEOps.ops :=
  Vec2 (ops := IEEEOps.ops) (IEEEOps.of_int 2) (IEEEOps.of_int 1).
Definition fweights : vec3 IEEEOps.ops :=
  Vec3 (ops := IEEEOps.ops) (IEEEOps.mk 1 (-1)) (IEEEOps.mk 1 (-2))
       (IEEEOps.mk 1 (-2)).

(** A triangle with depths 0, 3 and 6. *)
Definition tri_depth : arr3 (vec3 ops) :=
  Arr3 (qvec 0 0 0) (qvec 6 0 3) (qvec 0 6 6).

(** Its centroid, and a point far outside of it. *)
Definition point_centroid : vec2 ops := Vec2 (ops := ops) 2 2.
Definition point_far : vec2 ops := Vec2 (ops := ops) 100 100.

(** The float triangle (0,0,0), (4,0,1), (2,3,2), and weights with a NaN. *)
Definition ftri_a : arr3 (vec3 IEEEOps.ops) :=
  Arr3 (fvec 0 0 0) (fvec 4 0 1) (fvec 2 3 2).
Definition fweights_nan : vec3 IEEEOps.ops :=
  Vec3 (ops := IEEEOps.ops) S754_nan (IEEEOps.of_int 0) (IEEEOps.of_int 1).



(** A transform with a perspective row, the same without it, and two
    homogeneous vectors. *)
Definition qvec4 (a b c d : Q) : vec4 ops := Vec4 (ops := ops) a b c d.
Definition mat_a : mat4 ops :=
  Mat4 (qvec4 2 0 0 1) (qvec4 0 3 0 2) (qvec4 1 0 1 3) (qvec4 5 6 7 4).
Definition mat_a_affine : mat4 ops :=
  Mat4 (qvec4 2 0 0 0) (qvec4 0 3 0 0) (qvec4 1 0 1 0) (qvec4 5 6 7 1).
Definition hvec_a : vec4 ops := qvec4 1 2 3 1.
Definition hvec_b : vec4 ops := qvec4 (-1) 0 4 1.

(** A float triangle with two coincident vertices, and a texture
    coordinate with a NaN. *)
Definition ftri_needle : arr3 (vec3 IEEEOps.ops) :=
  Arr3 (fvec 1 2 0) (fvec 1 2 5) (fvec 7 3 1).
Definition ftexcoord_nan : vec2 IEEEOps.ops :=
  Vec2 (ops := IEEEOps.ops) S754_nan (IEEEOps.mk 1 (-1)).


End Inputs.

(** * Properties in exact arithmetic *)

Section ExactProperties.

#[local] Existing Instance ExactOps.ops.
Import ExactOps Geometry.





(** Generic in the arithmetic: the area reads no [z3]. *)
Lemma signed_area_same_xy (o : FloatOps) (s t : arr3 (vec3 o)) :
  same_xy s t -> calculateSignedArea s = calculateSignedArea t.
Proof.
  intros (H0 & H1 & H2 & H3 & H4 & H5).
  unfold calculateSignedArea. now rewrite H0, H1, H2, H3, H4, H5.
Qed.

(** The six orders of three elements. *)
Lemma Permutation_three (A : Type) (a b c u v w : A) :
  Permutation [a; b; c] [u; v; w] ->
  (a, b, c) = (u, v, w) \/ (a, b, c) = (u, w, v) \/
  (a, b, c) = (v, u, w) \/ (a, b, c) = (v, w, u) \/
  (a, b, c) = (w, u, v) \/ (a, b, c) = (w, v, u).
Proof.
  intros H.
  assert (Ha : In a [u; v; w]) by (apply (Permutation_in _ H); now left).
  destruct Ha as [<- | [<- | [<- | []]]].
  - apply Permutation_cons_inv in H.
    apply Permutation_length_2_inv in H. destruct H as [H | H]; inversion H; auto.
  - assert (H' : Permutation [v; b; c] [v; u; w])
      by (etransitivity; [exact H | apply perm_swap]).
    apply Permutation_cons_inv in H'.
    apply Permutation_length_2_inv in H'.
    destruct H' as [H' | H']; inversion H'; auto 6.
  - assert (H' : Permutation [w; b; c] [w; u; v]).
    { etransitivity; [exact H |].
      etransitivity; [apply perm_skip, perm_swap | apply perm_swap]. }
    apply Permutation_cons_inv in H'.
    apply Permutation_length_2_inv in H'.
    destruct H' as [H' | H']; inversion H'; auto 7.
Qed.

Lemma Qmin3_spec (a b c : Q) : is_min3 (Qmin (Qmin a b) c) a b c.
Proof.
  unfold is_min3.
  destruct (Q.min_spec a b) as [[H1 E1] | [H1 E1]];
    destruct (Q.min_spec (Qmin a b) c) as [[H2 E2] | [H2 E2]];
    rewrite E2; rewrite ?E1 in *; split; try lra; auto.
Qed.

Lemma Qmax3_spec (a b c : Q) : is_max3 (Qmax (Qmax a b) c) a b c.
Proof.
  unfold is_max3.
  destruct (Q.max_spec a b) as [[H1 E1] | [H1 E1]];
    destruct (Q.max_spec (Qmax a b) c) as [[H2 E2] | [H2 E2]];
    rewrite E2; rewrite ?E1 in *; split; try lra; auto.
Qed.

(** The least of three numbers does not depend on their order. *)
Lemma is_min3_unique (m m' a b c : Q) :
  is_min3 m a b c -> is_min3 m' a b c -> m == m'.
Proof.
  unfold is_min3. intros [(?&?&?) [E|[E|E]]] [(?&?&?) [E'|[E'|E']]]; lra.
Qed.

Lemma is_max3_unique (m m' a b c : Q) :
  is_max3 m a b c -> is_max3 m' a b c -> m == m'.
Proof.
  unfold is_max3. intros [(?&?&?) [E|[E|E]]] [(?&?&?) [E'|[E'|E']]]; lra.
Qed.

Lemma is_min3_perm (f : vec3 ops -> Q) (m : Q) (a b c u v w : vec3 ops) :
  Permutation [a; b; c] [u; v; w] ->
  is_min3 m (f a) (f b) (f c) -> is_min3 m (f u) (f v) (f w).
Proof.
  intros H. apply Permutation_three in H. unfold is_min3.
  destruct H as [H | [H | [H | [H | [H | H]]]]]; inversion H; subst;
    tauto.
Qed.

Lemma is_max3_perm (f : vec3 ops -> Q) (m : Q) (a b c u v w : vec3 ops) :
  Permutation [a; b; c] [u; v; w] ->
  is_max3 m (f a) (f b) (f c) -> is_max3 m (f u) (f v) (f w).
Proof.
  intros H. apply Permutation_three in H. unfold is_max3.
  destruct H as [H | [H | [H | [H | [H | H]]]]]; inversion H; subst;
    tauto.
Qed.

Lemma is_min3_le_is_max3 (m n a b c : Q) :
  is_min3 m a b c -> is_max3 n a b c -> m <= n.
Proof.
  unfold is_min3, is_max3. intros [(?&?&?) _] [(?&?&?) _]. lra.
Qed.

(** In exact arithmetic the comparison of the header is the order of [Q]. *)
Lemma in_bounds_exact (b : vec3 ops) :
  isBarycentricCoordInBounds b = true <->
  in_unit (x3 b) /\ in_unit (y3 b) /\ in_unit (z3 b).
Proof.
  unfold isBarycentricCoordInBounds, in_unit, flit. cbn.
  rewrite !andb_true_iff, !Qle_bool_iff. tauto.
Qed.

(** *** The texture look-up *)

Lemma to_int_in_range (n : Z) :
  (INT_MIN <= n <= INT_MAX)%Z -> to_int n = Some n.
Proof.
  intros H. unfold to_int, in_int.
  destruct (Z.leb_spec INT_MIN n), (Z.leb_spec n INT_MAX); cbn; auto; lia.
Qed.

Lemma int_rem_nonneg (a b : Z) :
  (0 <= a)%Z -> (0 < b)%Z -> int_rem a b = Some (a mod b)%Z.
Proof.
  intros Ha Hb. unfold int_rem.
  destruct (Z.eqb_spec b 0); [lia |].
  destruct (Z.eqb_spec a INT_MIN); [unfold INT_MIN in *; lia |].
  cbn. now rewrite Z.rem_mod_nonneg.
Qed.

Lemma Qtrunc_nonneg (q : Q) : 0 <= q -> Qtrunc q = Qfloor q.
Proof.
  intros H. destruct q as [n d]. unfold Qtrunc, Qfloor. cbn.
  apply Z.quot_div_nonneg; [| lia].
  unfold Qle in H. cbn in H. lia.
Qed.

(** The texel column or row of a coordinate between 0 and 1. *)
Lemma texel_coord_exact (n : Z) (t : Q) :
  (0 < n <= INT_MAX)%Z -> 0 <= t <= 1 ->
  texel_coord (ops := ops) n t = Some (Qfloor (inject_Z n * t) mod n)%Z.
Proof.
  intros Hn Ht. unfold texel_coord, int_of_float.
  change (@f2i ops (@fmul ops (@i2f ops n) t))
    with (Some (Qtrunc (inject_Z n * t))).
  assert (Hn' : 0 < inject_Z n) by (change 0 with (inject_Z 0); rewrite <- Zlt_Qlt; lia).
  assert (H0 : 0 <= inject_Z n * t) by nra.
  assert (H1 : inject_Z n * t <= inject_Z n) by nra.
  rewrite (Qtrunc_nonneg H0). cbn [bind].
  assert (Hf0 : (0 <= Qfloor (inject_Z n * t))%Z).
  { change 0%Z with (Qfloor 0). now apply Qfloor_resp_le. }
  assert (Hf1 : (Qfloor (inject_Z n * t) <= n)%Z).
  { rewrite <- (Qfloor_Z n) at 2. now apply Qfloor_resp_le. }
  rewrite to_int_in_range by (unfold INT_MIN; lia). cbn [bind].
  apply int_rem_nonneg; lia.
Qed.

Lemma read_in_range (data : list byte) (k : Z) :
  (0 <= k < Z.of_nat (length data))%Z ->
  exists b, nth_error data (Z.to_nat k) = Some b /\ read data k = Some b.
Proof.
  intros H. unfold read. destruct (Z.ltb_spec k 0); [lia |].
  destruct (nth_error data (Z.to_nat k)) as [b |] eqn:E; [eauto |].
  apply nth_error_None in E. lia.
Qed.










(** C8 (getAABBForTriangle): the min corner is, on each axis, the least
    of the three vertex components and the max corner the greatest; hence
    the box is the same for every reordering of the three vertices, and its
    min corner is below its max corner on every axis. *)
Theorem aabb_componentwise_min_max (tri : arr3 (vec3 ops)) :
  let box := getAABBForTriangle tri in
  (is_min3 (x3 (aabb_min box)) (x3 tri.[0]) (x3 tri.[1]) (x3 tri.[2]) /\
   is_min3 (y3 (aabb_min box)) (y3 tri.[0]) (y3 tri.[1]) (y3 tri.[2]) /\
   is_min3 (z3 (aabb_min box)) (z3 tri.[0]) (z3 tri.[1]) (z3 tri.[2])) /\
  (is_max3 (x3 (aabb_max box)) (x3 tri.[0]) (x3 tri.[1]) (x3 tri.[2]) /\
   is_max3 (y3 (aabb_max box)) (y3 tri.[0]) (y3 tri.[1]) (y3 tri.[2]) /\
   is_max3 (z3 (aabb_max box)) (z3 tri.[0]) (z3 tri.[1]) (z3 tri.[2])) /\
  (forall a b c : vec3 ops,
     Permutation [a; b; c] [tri.[0]; tri.[1]; tri.[2]] ->
     aabb_eq (getAABBForTriangle (Arr3 a b c)) box) /\
  vec3_le (aabb_min box) (aabb_max box).
Proof.
  cbn. repeat split; try apply Qmin3_spec; try apply Qmax3_spec.
  all: try (eapply is_min3_unique;
            [eapply is_min3_perm; [eassumption | apply Qmin3_spec]
            | apply Qmin3_spec]).
  all: try (eapply is_max3_unique;
            [eapply is_max3_perm; [eassumption | apply Qmax3_spec]
            | apply Qmax3_spec]).
  all: eapply is_min3_le_is_max3; [apply Qmin3_spec | apply Qmax3_spec].
Qed.

Lemma aabb_componentwise_min_max_witness :
  aabb_eq (getAABBForTriangle Inputs.tri_a_swapped)
          (getAABBForTriangle Inputs.tri_a).
Proof.
  apply (proj1 (proj2 (proj2 (aabb_componentwise_min_max Inputs.tri_a)))).
  apply perm_swap.
Defined.



(** The look-up on a well-sized buffer: texel, offsets, bytes and color. *)
Lemma texture_lookup_core
    (data : list byte) (u v : Q) (w h stride : Z) :
  0 <= u <= 1 -> 0 <= v <= 1 ->
  (0 < w)%Z -> (0 < h)%Z -> (3 <= stride)%Z ->
  (w * h * stride <= Z.of_nat (length data))%Z ->
  (w * h * stride <= INT_MAX)%Z ->
  let index := (Qfloor (inject_Z w * u) mod w
                + Qfloor (inject_Z h * v) mod h * w)%Z in
  texel_index (Vec2 (ops := ops) u v) w h = Some index /\
  (0 <= index * stride)%Z /\
  exists r g b : byte,
    nth_error data (Z.to_nat (index * stride)) = Some r /\
    nth_error data (Z.to_nat (index * stride + 1)) = Some g /\
    nth_error data (Z.to_nat (index * stride + 2)) = Some b /\
    getColorFromTextureData data (Vec2 (ops := ops) u v) w h stride
      = Some (Vec3 (ops := ops) (normalized r) (normalized g) (normalized b)).
Proof.
  intros Hu Hv Hw Hh Hs Hlen Hmax.
  set (x := (Qfloor (inject_Z w * u) mod w)%Z).
  set (y := (Qfloor (inject_Z h * v) mod h)%Z).
  intros index.
  assert (Hwh : (0 < w * h)%Z) by nia.
  assert (Hwhs : (w * h <= w * h * stride)%Z) by nia.
  assert (Hw' : (w <= w * h)%Z) by nia.
  assert (Hh' : (h <= w * h)%Z) by nia.
  assert (Hx : (0 <= x < w)%Z) by (apply Z.mod_pos_bound; lia).
  assert (Hy : (0 <= y < h)%Z) by (apply Z.mod_pos_bound; lia).
  assert (Hyw : (0 <= y * w <= w * h - w)%Z) by nia.
  assert (Hi : (0 <= index <= w * h - 1)%Z) by (unfold index; lia).
  assert (Hk : (0 <= index * stride /\
                index * stride + stride <= w * h * stride)%Z) by nia.
  assert (Hidx : texel_index (Vec2 (ops := ops) u v) w h = Some index).
  { unfold texel_index. cbn [x2 y2].
    rewrite (@texel_coord_exact w u) by (split; lia || assumption || tauto).
    rewrite (@texel_coord_exact h v) by (split; lia || assumption || tauto).
    cbn [bind]. fold x y. unfold int_mul, int_add.
    rewrite to_int_in_range by (unfold INT_MIN; lia). cbn [bind].
    apply to_int_in_range. unfold INT_MIN. fold index. lia. }
  split; [exact Hidx | split; [lia |]].
  destruct (@read_in_range data (index * stride)%Z) as (r & Hr & Rr); [lia |].
  destruct (@read_in_range data (index * stride + 1)%Z) as (g & Hg & Rg);
    [lia |].
  destruct (@read_in_range data (index * stride + 2)%Z) as (b & Hb & Rb);
    [lia |].
  exists r, g, b.
  split; [exact Hr | split; [exact Hg | split; [exact Hb |]]].
  unfold getColorFromTextureData. rewrite Hidx. cbn [bind].
  unfold int_mul, int_add, channel.
  repeat (first [ rewrite to_int_in_range by (unfold INT_MIN; lia)
                | rewrite Rr | rewrite Rg | rewrite Rb ];
          cbn [bind]).
  reflexivity.
Qed.




(** With channelStride = 3 the three bytes read are the channelStride bytes
    of the texel, and the code returns what the specification words. *)
Lemma texture_lookup_stride_three
    (data : list byte) (u v : Q) (w h : Z) :
  0 <= u <= 1 -> 0 <= v <= 1 -> (0 < w)%Z -> (0 < h)%Z ->
  (w * h * 3 <= Z.of_nat (length data))%Z ->
  (w * h * 3 <= INT_MAX)%Z ->
  lookup_matches_spec data u v w h 3.
Proof.
  intros Hu Hv Hw Hh Hlen Hmax.
  assert (H3 : (3 <= 3)%Z) by lia.
  destruct (@texture_lookup_core data u v w h 3 Hu Hv Hw Hh H3 Hlen Hmax)
    as (_ & Hk & r & g & b & Hr & Hg & Hb & Hc).
  eexists. split; [exact Hc |].
  unfold sampleTexture_spec.
  set (k := Z.to_nat _) in *.
  replace (Z.to_nat (_ * 3 + 1)) with (k + 1)%nat in Hg by (unfold k; lia).
  replace (Z.to_nat (_ * 3 + 2)) with (k + 2)%nat in Hb by (unfold k; lia).
  rewrite <- (Nat.add_0_r k) in Hr.
  rewrite <- nth_error_skipn in Hr, Hg, Hb.
  destruct (skipn k data) as [| r' [| g' [| b' l]]]; try discriminate.
  cbn in Hr, Hg, Hb. injection Hr as ->. injection Hg as ->.
  injection Hb as ->.
  cbn. repeat constructor; reflexivity.
Qed.



(** *** The header on the examples of its specification *)

Example aabb_of_tri_a :
  getAABBForTriangle Inputs.tri_a
  = MkAABB (Inputs.qvec 0 0 0) (Inputs.qvec 4 3 2).
Proof. reflexivity. Qed.

Example depth_at_centroid :
  getZAtCoordinate
    (calculateBarycentricCoordinate Inputs.tri_depth Inputs.point_centroid)
    Inputs.tri_depth == 3.
Proof. vm_compute. reflexivity. Qed.

Example centroid_inside :
  vec3_eq (calculateBarycentricCoordinate Inputs.tri_depth
                                          Inputs.point_centroid)
          (Vec3 (1 # 3) (1 # 3) (1 # 3)) /\
  isBarycentricCoordInBounds
    (calculateBarycentricCoordinate Inputs.tri_depth Inputs.point_centroid)
  = true.
Proof. vm_compute. repeat split. Qed.

Example far_point_outside :
  isBarycentricCoordInBounds
    (calculateBarycentricCoordinate Inputs.tri_depth Inputs.point_far)
  = false.
Proof. reflexivity. Qed.

End ExactProperties.

(** * Properties in IEEE-754 arithmetic *)

Section IEEEProperties.

Import IEEEOps.

Lemma digits2_pos_bounds (m : positive) :
  (2 ^ (Zpos (digits2_pos m) - 1) <= Zpos m < 2 ^ Zpos (digits2_pos m))%Z.
Proof.
  induction m as [m IH | m IH |]; cbn [digits2_pos].
  - rewrite Pos2Z.inj_succ, Z.pow_succ_r by lia.
    replace (Z.succ (Zpos (digits2_pos m)) - 1)%Z
      with (Z.succ (Zpos (digits2_pos m) - 1)) by lia.
    rewrite Z.pow_succ_r by lia. lia.
  - rewrite Pos2Z.inj_succ, Z.pow_succ_r by lia.
    replace (Z.succ (Zpos (digits2_pos m)) - 1)%Z
      with (Z.succ (Zpos (digits2_pos m) - 1)) by lia.
    rewrite Z.pow_succ_r by lia. lia.
  - cbn. lia.
Qed.

Lemma Qle_0_frac (n : Z) (d : positive) : 0 <= n # d <-> (0 <= n)%Z.
Proof. unfold Qle. cbn [Qnum Qden]. lia. Qed.

Lemma Qle_frac_1 (n : Z) (d : positive) : n # d <= 1 <-> (n <= Zpos d)%Z.
Proof. unfold Qle. cbn [Qnum Qden]. lia. Qed.

Lemma Qle_0_inject_Z (n : Z) : 0 <= inject_Z n <-> (0 <= n)%Z.
Proof. unfold Qle. cbn [Qnum Qden inject_Z]. lia. Qed.

Lemma Qle_inject_Z_1 (n : Z) : inject_Z n <= 1 <-> (n <= 1)%Z.
Proof. unfold Qle. cbn [Qnum Qden inject_Z]. lia. Qed.

(** A finite float [m * 2^e] of sign [s] lies between 0 and 1 exactly when
    it is positive and [m <= 2^(-e)]. *)
Lemma SF_in_unit_finite (s : bool) (m : positive) (e : Z) :
  SF_in_unit (S754_finite s m e) <->
  s = false /\
  (if (e <? 0)%Z then (Zpos m <= 2 ^ (- e))%Z else (Zpos m * 2 ^ e <= 1)%Z).
Proof.
  unfold SF_in_unit. destruct e as [| p | k]; cbn [SF2Q Z.ltb Z.compare Z.opp].
  - split.
    + intros (q & Hq & H0 & H1). injection Hq as <-.
      apply (proj1 (Qle_0_inject_Z _)) in H0.
      apply (proj1 (Qle_inject_Z_1 _)) in H1.
      destruct s; cbn [cond_Zopp] in *; [lia | split; [reflexivity | lia]].
    + intros [-> H]. eexists. split; [reflexivity |].
      rewrite Qle_0_inject_Z, Qle_inject_Z_1. cbn [cond_Zopp]. lia.
  - assert (Hp : (0 < 2 ^ Zpos p)%Z) by (apply Z.pow_pos_nonneg; lia).
    split.
    + intros (q & Hq & H0 & H1). injection Hq as <-.
      apply (proj1 (Qle_0_inject_Z _)) in H0.
      apply (proj1 (Qle_inject_Z_1 _)) in H1.
      destruct s; cbn [cond_Zopp] in *; [nia | split; [reflexivity | lia]].
    + intros [-> H]. eexists. split; [reflexivity |].
      rewrite Qle_0_inject_Z, Qle_inject_Z_1. cbn [cond_Zopp]. nia.
  - split.
    + intros (q & Hq & H0 & H1). injection Hq as <-.
      apply (proj1 (Qle_0_frac _ _)) in H0.
      apply (proj1 (Qle_frac_1 _ _)) in H1.
      rewrite Pos2Z.inj_pow in H1.
      destruct s; cbn [cond_Zopp] in *; [lia | split; [reflexivity | lia]].
    + intros [-> H]. eexists. split; [reflexivity |].
      rewrite Qle_0_frac, Qle_frac_1, Pos2Z.inj_pow. cbn [cond_Zopp]. lia.
Qed.

(** The literals [0.f] and [1.f]. *)
Lemma of_int_0 : of_int 0 = S754_zero false.
Proof. vm_compute. reflexivity. Qed.

Lemma of_int_1 : of_int 1 = S754_finite false 8388608 (-23).
Proof. vm_compute. reflexivity. Qed.

(** A well-formed mantissa has at most 24 digits, and exactly 24 above the
    least exponent. *)
Lemma canonical32 (m : positive) (e : Z) :
  canonical_mantissa prec32 emax32 m e = true ->
  Z.max (Zpos (digits2_pos m) + e - 24) (-149) = e.
Proof.
  unfold canonical_mantissa, fexp, emin, prec32, emax32.
  intros H. apply Z.eqb_eq in H. exact H.
Qed.

(** The comparison of a positive well-formed float with [1.f], whose
    mantissa [n] is [2^23] and whose exponent is [-23]. *)
Lemma leb_one_finite (m n : positive) (e : Z) :
  Zpos n = (2 ^ 23)%Z ->
  Z.max (Zpos (digits2_pos m) + e - 24) (-149) = e ->
  SFleb (S754_finite false m e) (S754_finite false n (-23)) = true <->
  (if (e <? 0)%Z then (Zpos m <= 2 ^ (- e))%Z else (Zpos m * 2 ^ e <= 1)%Z).
Proof.
  intros Hn Hc.
  pose proof (digits2_pos_bounds m) as Hd.
  remember (Zpos (digits2_pos m)) as d eqn:Ed. clear Ed.
  unfold SFleb, SFcompare.
  destruct (Z.compare_spec e (-23)) as [He | He | He].
  - (* e = -23 *)
    subst e. clear Hc Hd d.
    replace (-23 <? 0)%Z with true by reflexivity.
    replace (- -23)%Z with 23%Z by reflexivity. rewrite <- Hn.
    rewrite Pos.compare_cont_spec.
    destruct (Pos.compare_spec m n) as [Hm | Hm | Hm]; cbn [Pos.switch_Eq].
    + split; [intros _ | intros _; reflexivity].
      rewrite Hm. apply Z.le_refl.
    + split; [intros _ | intros _; reflexivity].
      apply Pos2Z.pos_le_pos, Pos.lt_le_incl, Hm.
    + split; [intros E; discriminate E | intros H].
      change (m <= n)%positive in H. apply Pos.lt_nle in Hm.
      destruct (Hm H).
  - (* e < -23 *)
    split; [intros _ | intros _; reflexivity].
    destruct (Z.ltb_spec e 0); [| lia].
    assert (H24 : (2 ^ d <= 2 ^ 24)%Z) by (apply Z.pow_le_mono_r; lia).
    assert (Hk : (2 ^ 24 <= 2 ^ (- e))%Z) by (apply Z.pow_le_mono_r; lia).
    lia.
  - (* e > -23 *)
    split; [intros E; discriminate E |]. intros H. exfalso.
    assert (Hd24 : d = 24%Z) by lia.
    subst d. replace (2 ^ (24 - 1))%Z with 8388608%Z in Hd by reflexivity.
    destruct (Z.ltb_spec e 0).
    + assert (H22 : (2 ^ (- e) <= 2 ^ 22)%Z) by (apply Z.pow_le_mono_r; lia).
      replace (2 ^ 22)%Z with 4194304%Z in H22 by reflexivity. lia.
    + assert (0 < 2 ^ e)%Z by (apply Z.pow_pos_nonneg; lia).
      nia.
Qed.

(** The two comparisons of one weight, on a well-formed float. *)
Lemma leb_unit_interval (x : spec_float) :
  valid32 x ->
  SFleb (of_int 0) x && SFleb x (of_int 1) = true <-> SF_in_unit x.
Proof.
  intros Hv. rewrite of_int_0, of_int_1.
  destruct x as [s | s | | s m e].
  - split; [intros _ | intros _; reflexivity].
    exists 0. split; [reflexivity | split; discriminate].
  - split; [destruct s; intros E; discriminate E |].
    intros (q & Hq & _). discriminate Hq.
  - split; [intros E; discriminate E |].
    intros (q & Hq & _). discriminate Hq.
  - rewrite SF_in_unit_finite.
    unfold valid32 in Hv. cbn [valid_binary] in Hv.
    unfold bounded in Hv. apply andb_true_iff in Hv.
    destruct Hv as [Hc _]. apply canonical32 in Hc.
    destruct s.
    + split; [intros E; discriminate E | intros [E _]; discriminate E].
    + rewrite <- (@leb_one_finite m 8388608 e eq_refl Hc).
      split; [intros H; split; [reflexivity | exact H] | intros [_ H]; exact H].
Qed.

Lemma in_bounds_ieee (b : vec3 ops) :
  valid32 (x3 b) -> valid32 (y3 b) -> valid32 (z3 b) ->
  isBarycentricCoordInBounds b = true <->
  SF_in_unit (x3 b) /\ SF_in_unit (y3 b) /\ SF_in_unit (z3 b).
Proof.
  intros Hx Hy Hz.
  rewrite <- (leb_unit_interval Hx), <- (leb_unit_interval Hy),
    <- (leb_unit_interval Hz).
  unfold isBarycentricCoordInBounds, flit.
  change (@fleb ops) with SFleb. change (@i2f ops) with of_int.
  rewrite !andb_true_iff. tauto.
Qed.

(** C3 (isBarycentricCoordInBounds): the result is true if and only if each
    of the three weights lies in the closed interval from 0 to 1.  In exact
    arithmetic the weights are rationals; in IEEE arithmetic they are
    well-formed binary32 values, of which infinities and NaN lie in no
    interval. *)
Theorem in_bounds_iff_unit_interval :
  (forall b : vec3 ExactOps.ops,
     isBarycentricCoordInBounds b = true <->
     Geometry.in_unit (x3 b) /\ Geometry.in_unit (y3 b) /\
     Geometry.in_unit (z3 b)) /\
  (forall b : vec3 IEEEOps.ops,
     valid32 (x3 b) -> valid32 (y3 b) -> valid32 (z3 b) ->
     (isBarycentricCoordInBounds b = true <->
      SF_in_unit (x3 b) /\ SF_in_unit (y3 b) /\ SF_in_unit (z3 b))).
Proof.
  split; [exact in_bounds_exact | exact in_bounds_ieee].
Qed.

Lemma in_bounds_iff_unit_interval_witness :
  isBarycentricCoordInBounds Inputs.fweights = true <->
  SF_in_unit (x3 Inputs.fweights) /\ SF_in_unit (y3 Inputs.fweights) /\
  SF_in_unit (z3 Inputs.fweights).
Proof.
  apply (proj2 in_bounds_iff_unit_interval Inputs.fweights); reflexivity.
Defined.

(** *** Division by a zero area *)

Lemma div_by_zero_not_finite (x y : spec_float) :
  is_zero y = true -> is_finite (SFdiv prec32 emax32 x y) = false.
Proof.
  destruct x, y; cbn; intros H; try discriminate; reflexivity.
Qed.

Lemma convert_not_finite (prec emax : Z) (x : spec_float) :
  is_finite x = false -> is_finite (convert prec emax x) = false.
Proof.
  destruct x; cbn; intros H; try discriminate; reflexivity.
Qed.

Lemma sub_not_finite_r (prec emax : Z) (x y : spec_float) :
  is_finite y = false -> is_finite (SFsub prec emax x y) = false.
Proof.
  destruct x as [s | s | | s m e], y as [t | t | | t n f]; cbn; intros H;
    try discriminate; try reflexivity; destruct s, t; reflexivity.
Qed.

(** C9 (calculateBarycentricCoordinate, calculateBarycentricCoordinateValue):
    the function is total, with no guard before its two divisions and no
    error result.  In exact arithmetic, for a triangle of non-zero area,
    each quotient is the true quotient of the sub-area by the area.  In
    IEEE arithmetic, for a triangle whose computed area is zero, the
    divisions by that zero are still performed and all three weights are
    infinities or NaN. *)
Theorem barycentric_division_unguarded :
  (forall (tri : arr3 (vec3 ExactOps.ops)) (point : vec2 ExactOps.ops),
     ~ calculateSignedArea tri == 0 ->
     let r := calculateBarycentricCoordinate tri point in
     y3 r * calculateSignedArea tri ==
       calculateSignedArea (Arr3 tri.[0] (vec3_of_vec2 point 0) tri.[2]) /\
     z3 r * calculateSignedArea tri ==
       calculateSignedArea (Arr3 tri.[0] tri.[1] (vec3_of_vec2 point 0))) /\
  (forall (tri : arr3 (vec3 IEEEOps.ops)) (point : vec2 IEEEOps.ops),
     is_zero (calculateSignedArea tri) = true ->
     let r := calculateBarycentricCoordinate tri point in
     (y3 r = SFdiv prec32 emax32
               (calculateSignedArea
                  (Arr3 tri.[0] (vec3_of_vec2 point (of_int 0)) tri.[2]))
               (calculateSignedArea tri) /\
      z3 r = SFdiv prec32 emax32
               (calculateSignedArea
                  (Arr3 tri.[0] tri.[1] (vec3_of_vec2 point (of_int 0))))
               (calculateSignedArea tri)) /\
     is_finite (x3 r) = false /\ is_finite (y3 r) = false /\
     is_finite (z3 r) = false).
Proof.
  split.
  - intros tri point Hnd.
    unfold calculateBarycentricCoordinate,
      calculateBarycentricCoordinateValue, calculateSignedArea,
      vec3_of_vec2, flit in *.
    cbn in *. split; field; intros E; apply Hnd; rewrite E; ring.
  - intros tri point Hz.
    unfold calculateBarycentricCoordinate,
      calculateBarycentricCoordinateValue.
    cbn [x3 y3 z3].
    split; [split; reflexivity |].
    split; [| split].
    + apply convert_not_finite, sub_not_finite_r, convert_not_finite.
      now apply div_by_zero_not_finite.
    + now apply div_by_zero_not_finite.
    + now apply div_by_zero_not_finite.
Qed.

Lemma barycentric_division_unguarded_witness :
  is_finite (x3 (calculateBarycentricCoordinate Inputs.ftri_line Inputs.fpoint))
    = false /\
  is_finite (y3 (calculateBarycentricCoordinate Inputs.ftri_line Inputs.fpoint))
    = false /\
  is_finite (z3 (calculateBarycentricCoordinate Inputs.ftri_line Inputs.fpoint))
    = false.
Proof.
  apply (proj2 barycentric_division_unguarded Inputs.ftri_line Inputs.fpoint).
  reflexivity.
Defined.

(** A weight that is an infinity or NaN fails one of its two comparisons. *)
Lemma not_finite_out_of_bounds (b : vec3 ops) :
  is_finite (x3 b) = false \/ is_finite (y3 b) = false \/
  is_finite (z3 b) = false ->
  isBarycentricCoordInBounds b = false.
Proof.
  unfold isBarycentricCoordInBounds, flit.
  change (@fleb ops) with SFleb. change (@i2f ops) with of_int.
  rewrite of_int_0, of_int_1.
  assert (H : forall x, is_finite x = false ->
              SFleb (S754_zero false) x && SFleb x (S754_finite false 8388608 (-23))
              = false).
  { intros [s | [|] | | s m e] E; try discriminate E; reflexivity. }
  intros HE. apply not_true_iff_false. intros Ht.
  rewrite !andb_true_iff in Ht.
  destruct Ht as [[[[[A0 A1] B0] B1] C0] C1].
  destruct HE as [E | [E | E]]; apply H in E;
    rewrite ?A0, ?A1, ?B0, ?B1, ?C0, ?C1 in E; discriminate E.
Qed.

(** A triangle whose computed area is zero covers no point. *)
Lemma zero_area_never_in_bounds (tri : arr3 (vec3 ops)) (point : vec2 ops) :
  is_zero (calculateSignedArea tri) = true ->
  isBarycentricCoordInBounds (calculateBarycentricCoordinate tri point)
  = false.
Proof.
  intros Hz. apply not_finite_out_of_bounds. right. left.
  unfold calculateBarycentricCoordinate,
    calculateBarycentricCoordinateValue. cbn [y3].
  now apply div_by_zero_not_finite.
Qed.

(** *** The header on floats *)

Example aabb_of_ftri_a :
  getAABBForTriangle Inputs.ftri_a
  = MkAABB (Inputs.fvec 0 0 0) (Inputs.fvec 4 3 2).
Proof. reflexivity. Qed.

Example barycentric_at_second_vertex_ieee :
  calculateBarycentricCoordinate Inputs.ftri_a (xy Inputs.ftri_a.[1])
  = Vec3 (ops := ops) (S754_zero false) (of_int 1) (S754_zero true).
Proof. reflexivity. Qed.

Example nan_weight_rejected :
  isBarycentricCoordInBounds Inputs.fweights_nan = false.
Proof. reflexivity. Qed.

Example wraparound_512_ieee :
  texel_index (Vec2 (ops := ops) (of_int 1) (of_int 1)) 512 512 = Some 0%Z.
Proof. reflexivity. Qed.

End IEEEProperties.

(** * Further properties in exact arithmetic *)

Section ExactGeometry.

#[local] Existing Instance ExactOps.ops.
Import ExactOps Geometry.






























(** Coverage is a test in the plane, in any arithmetic: the weights do not
    depend on the depths of the three vertices. *)
Theorem barycentric_ignores_depth
    (o : FloatOps) (s t : arr3 (vec3 o)) (point : vec2 o) :
  same_xy s t ->
  calculateBarycentricCoordinate s point
  = calculateBarycentricCoordinate t point.
Proof.
  intros H. pose proof (signed_area_same_xy H) as Ha.
  destruct H as (H0 & H1 & H2 & H3 & H4 & H5).
  unfold calculateBarycentricCoordinate, calculateBarycentricCoordinateValue.
  now rewrite Ha, H0, H1, H2, H3, H4, H5.
Qed.

Lemma barycentric_ignores_depth_witness :
  calculateBarycentricCoordinate Inputs.tri_a Inputs.point_a
  = calculateBarycentricCoordinate Inputs.tri_a_deep Inputs.point_a.
Proof.
  apply barycentric_ignores_depth. vm_compute. repeat split.
Defined.

(** *** multiplyMV *)

(** The fourth row of the matrix is not read, in any arithmetic: two
    matrices that agree on their first three rows transform every vector
    alike, so no perspective division can take place. *)
Theorem multiplyMV_ignores_fourth_row
    (o : FloatOps) (m n : mat4 o) (v : vec4 o) :
  same_upper_rows m n -> multiplyMV m v = multiplyMV n v.
Proof.
  intros ((A0 & A1 & A2) & (B0 & B1 & B2) & (C0 & C1 & C2) & (D0 & D1 & D2)).
  unfold multiplyMV, mat4_mul_vec4, vec3_of_vec4, add4, scale4.
  cbn [x4 y4 z4 w4].
  now rewrite A0, A1, A2, B0, B1, B2, C0, C1, C2, D0, D1, D2.
Qed.

Lemma multiplyMV_ignores_fourth_row_witness :
  multiplyMV Inputs.mat_a Inputs.hvec_a
  = multiplyMV Inputs.mat_a_affine Inputs.hvec_a.
Proof.
  apply multiplyMV_ignores_fourth_row. vm_compute. repeat split.
Defined.


End ExactGeometry.

(** * Further properties of the texture look-up *)

Section TextureEdges.

(** A zero width or height leaves the look-up undefined (a remainder by
    zero), in any arithmetic, for every buffer and coordinate. *)
Theorem lookup_zero_dimension
    (o : FloatOps) (data : list byte) (texcoord : vec2 o) (w h stride : Z) :
  w = 0%Z \/ h = 0%Z ->
  getColorFromTextureData data texcoord w h stride = None.
Proof.
  assert (Hz : forall t : float, texel_coord 0 t = None).
  { intros t. unfold texel_coord.
    destruct (int_of_float (fmul (i2f 0) t)); reflexivity. }
  intros [-> | ->]; unfold getColorFromTextureData, texel_index.
  - now rewrite Hz.
  - destruct (texel_coord w (x2 texcoord)); [| reflexivity].
    cbn [bind]. now rewrite Hz.
Qed.

Lemma lookup_zero_dimension_witness :
  getColorFromTextureData Inputs.tex_rgb
    (Vec2 (ops := ExactOps.ops) (1 # 2) (1 # 2)) 0 2 3 = None.
Proof.
  apply lookup_zero_dimension. left. reflexivity.
Defined.

#[local] Existing Instance ExactOps.ops.
Import ExactOps Geometry.














End TextureEdges.

(** * Further properties in IEEE-754 arithmetic *)

Section IEEEEdges.

#[local] Existing Instance IEEEOps.ops.
Import IEEEOps.

Lemma mul_not_finite_r (prec emax : Z) (x y : spec_float) :
  is_finite y = false -> is_finite (SFmul prec emax x y) = false.
Proof.
  destruct x as [s | s | | s m e], y as [t | t | | t n f]; intros H;
    try discriminate H; reflexivity.
Qed.

(** A texture coordinate that is an infinity or NaN leaves the look-up
    undefined: its product with the width or height has no integer part to
    convert. *)
Theorem lookup_non_finite_texcoord
    (data : list byte) (texcoord : vec2 ops) (w h stride : Z) :
  is_finite (x2 texcoord) = false \/ is_finite (y2 texcoord) = false ->
  getColorFromTextureData data texcoord w h stride = None.
Proof.
  assert (Hn : forall (n : Z) (t : spec_float),
            is_finite t = false -> texel_coord (ops := ops) n t = None).
  { intros n t Ht. unfold texel_coord, int_of_float.
    change (@f2i ops) with truncate.
    change (@fmul ops) with (SFmul prec32 emax32).
    pose proof (@mul_not_finite_r prec32 emax32 (@i2f ops n) t Ht) as Hm.
    destruct (SFmul prec32 emax32 (@i2f ops n) t);
      try discriminate Hm; reflexivity. }
  intros [H | H]; unfold getColorFromTextureData, texel_index.
  - now rewrite (Hn w _ H).
  - destruct (texel_coord w (x2 texcoord)); [| reflexivity].
    cbn [bind]. now rewrite (Hn h _ H).
Qed.

Lemma lookup_non_finite_texcoord_witness :
  getColorFromTextureData Inputs.tex_rgb Inputs.ftexcoord_nan 2 2 3 = None.
Proof.
  apply lookup_non_finite_texcoord. left. reflexivity.
Defined.

Lemma zero_area_never_in_bounds_witness :
  isBarycentricCoordInBounds
    (calculateBarycentricCoordinate Inputs.ftri_line Inputs.fpoint) = false.
Proof.
  apply zero_area_never_in_bounds. reflexivity.
Defined.

(** *** Coincident vertices *)

Lemma sub_self_zero (prec emax : Z) (x : spec_float) :
  is_finite (SFsub prec emax x x) = true ->
  is_zero (SFsub prec emax x x) = true.
Proof.
  destruct x as [s | s | | s m e].
  - destruct s; reflexivity.
  - destruct s; intros H; discriminate H.
  - intros H; discriminate H.
  - intros _. unfold SFsub. rewrite Z.sub_diag. reflexivity.
Qed.

Lemma sub_self_of_finite (prec emax : Z) (x : spec_float) :
  is_finite x = true -> is_zero (SFsub prec emax x x) = true.
Proof.
  destruct x as [s | s | | s m e]; intros H; try discriminate H.
  - destruct s; reflexivity.
  - unfold SFsub. rewrite Z.sub_diag. reflexivity.
Qed.

Lemma mul_zero_r (prec emax : Z) (x y : spec_float) :
  is_finite x = true -> is_zero y = true ->
  is_zero (SFmul prec emax x y) = true.
Proof.
  destruct x as [s | s | | s m e], y as [t | t | | t n f]; intros Hx Hy;
    try discriminate Hx; try discriminate Hy; reflexivity.
Qed.

Lemma mul_zero_l (prec emax : Z) (x y : spec_float) :
  is_zero x = true -> is_finite y = true ->
  is_zero (SFmul prec emax x y) = true.
Proof.
  destruct x as [s | s | | s m e], y as [t | t | | t n f]; intros Hx Hy;
    try discriminate Hx; try discriminate Hy; reflexivity.
Qed.

Lemma sub_zero_zero (prec emax : Z) (x y : spec_float) :
  is_zero x = true -> is_zero y = true ->
  is_zero (SFsub prec emax x y) = true.
Proof.
  destruct x as [s | s | | s m e], y as [t | t | | t n f]; intros Hx Hy;
    try discriminate Hx; try discriminate Hy; destruct s, t; reflexivity.
Qed.

(** Half of a zero, converted back to float, is a zero. *)
Lemma half_of_zero (x : spec_float) :
  is_zero x = true ->
  is_zero (@d2f ops (@dmul ops (@d0_5 ops) (@f2d ops x))) = true.
Proof.
  destruct x as [s | s | | s m e]; intros H; try discriminate H.
  destruct s; vm_compute; reflexivity.
Qed.

(** When two vertices of a triangle have the same x and y, and neither the
    coordinate differences nor their products overflow, the computed area
    is a zero, and so the triangle covers no point. *)
Theorem coincident_vertices_zero_area
    (tri : arr3 (vec3 ops)) (point : vec2 ops) :
  let dx1 := SFsub prec32 emax32 (x3 tri.[1]) (x3 tri.[0]) in
  let dy1 := SFsub prec32 emax32 (y3 tri.[1]) (y3 tri.[0]) in
  let dx2 := SFsub prec32 emax32 (x3 tri.[2]) (x3 tri.[0]) in
  let dy2 := SFsub prec32 emax32 (y3 tri.[2]) (y3 tri.[0]) in
  is_finite dx1 = true -> is_finite dy1 = true ->
  is_finite dx2 = true -> is_finite dy2 = true ->
  is_finite (SFmul prec32 emax32 dx2 dy1) = true ->
  is_finite (SFmul prec32 emax32 dx1 dy2) = true ->
  (x3 tri.[0] = x3 tri.[1] /\ y3 tri.[0] = y3 tri.[1]) \/
  (x3 tri.[0] = x3 tri.[2] /\ y3 tri.[0] = y3 tri.[2]) \/
  (x3 tri.[1] = x3 tri.[2] /\ y3 tri.[1] = y3 tri.[2]) ->
  is_zero (calculateSignedArea tri) = true /\
  isBarycentricCoordInBounds (calculateBarycentricCoordinate tri point)
  = false.
Proof.
  intros dx1 dy1 dx2 dy2 Fx1 Fy1 Fx2 Fy2 FA FB Hc.
  assert (Hz : is_zero (calculateSignedArea tri) = true).
  { unfold calculateSignedArea. apply half_of_zero.
    change (@fsub ops) with (SFsub prec32 emax32).
    change (@fmul ops) with (SFmul prec32 emax32).
    fold dx1 dy1 dx2 dy2.
    destruct Hc as [[Ex Ey] | [[Ex Ey] | [Ex Ey]]].
    - assert (Zx : is_zero dx1 = true).
      { unfold dx1 in *. rewrite <- Ex in *. now apply sub_self_zero. }
      assert (Zy : is_zero dy1 = true).
      { unfold dy1 in *. rewrite <- Ey in *. now apply sub_self_zero. }
      apply sub_zero_zero; [now apply mul_zero_r | now apply mul_zero_l].
    - assert (Zx : is_zero dx2 = true).
      { unfold dx2 in *. rewrite <- Ex in *. now apply sub_self_zero. }
      assert (Zy : is_zero dy2 = true).
      { unfold dy2 in *. rewrite <- Ey in *. now apply sub_self_zero. }
      apply sub_zero_zero; [now apply mul_zero_l | now apply mul_zero_r].
    - assert (E1 : dx2 = dx1) by (unfold dx1, dx2; now rewrite Ex).
      assert (E2 : dy2 = dy1) by (unfold dy1, dy2; now rewrite Ey).
      rewrite E1, E2 in *. now apply sub_self_of_finite. }
  split; [exact Hz |].
  apply not_finite_out_of_bounds. right. left.
  unfold calculateBarycentricCoordinate,
    calculateBarycentricCoordinateValue. cbn [y3].
  now apply div_by_zero_not_finite.
Qed.

Lemma coincident_vertices_zero_area_witness :
  is_zero (calculateSignedArea Inputs.ftri_needle) = true /\
  isBarycentricCoordInBounds
    (calculateBarycentricCoordinate Inputs.ftri_needle Inputs.fpoint) = false.
Proof.
  apply (@coincident_vertices_zero_area Inputs.ftri_needle Inputs.fpoint);
    try reflexivity.
  left. split; reflexivity.
Defined.

(** *** The winding of a triangle on floats *)

(** Rounding does not look at the sign. *)
Lemma binary_round_aux_abs (prec emax : Z) (s : bool) (m e : Z) (l : location) :
  SFabs (binary_round_aux prec emax s m e l)
  = SFabs (binary_round_aux prec emax false m e l).
Proof.
  unfold binary_round_aux.
  destruct (shr_fexp prec emax m e l) as [mrs e'].
  destruct (shr_fexp prec emax _ e' loc_Exact) as [mrs' e''].
  destruct (shr_m mrs'); [reflexivity | | reflexivity].
  destruct (Z.leb e'' (emax - prec)); reflexivity.
Qed.

Lemma binary_round_abs (prec emax : Z) (s : bool) (m : positive) (e : Z) :
  SFabs (binary_round prec emax s m e)
  = SFabs (binary_round prec emax false m e).
Proof.
  unfold binary_round.
  destruct (shl_align m e _) as [mz ez]. apply binary_round_aux_abs.
Qed.

Lemma binary_normalize_opp_abs (prec emax : Z) (m e : Z) :
  SFabs (binary_normalize prec emax (- m) e false)
  = SFabs (binary_normalize prec emax m e false).
Proof.
  destruct m as [| p | p]; cbn [Z.opp binary_normalize]; [reflexivity | |].
  - apply binary_round_abs.
  - symmetry. apply binary_round_abs.
Qed.

(** [b - a] and [a - b] differ in sign only. *)
Lemma sub_swap_abs (prec emax : Z) (a b : spec_float) :
  SFabs (SFsub prec emax b a) = SFabs (SFsub prec emax a b).
Proof.
  destruct a as [s | s | | s m e], b as [t | t | | t n f];
    try reflexivity; try (destruct s, t; reflexivity).
  unfold SFsub. rewrite (Z.min_comm f e).
  rewrite <- binary_normalize_opp_abs. f_equal. f_equal. lia.
Qed.

Lemma convert_abs (prec emax : Z) (x y : spec_float) :
  SFabs x = SFabs y ->
  SFabs (convert prec emax x) = SFabs (convert prec emax y).
Proof.
  destruct x as [s | s | | s m e], y as [t | t | | t n f]; intros H;
    try discriminate H; try reflexivity.
  injection H as -> ->. unfold convert.
  rewrite (binary_round_abs prec emax s), (binary_round_abs prec emax t).
  reflexivity.
Qed.

Lemma mul_abs_r (prec emax : Z) (h x y : spec_float) :
  SFabs x = SFabs y ->
  SFabs (SFmul prec emax h x) = SFabs (SFmul prec emax h y).
Proof.
  destruct h as [r | r | | r k g], x as [s | s | | s m e],
    y as [t | t | | t n f]; intros H;
    try discriminate H; try reflexivity.
  injection H as -> ->. unfold SFmul.
  rewrite (binary_round_aux_abs prec emax (xorb r s)),
    (binary_round_aux_abs prec emax (xorb r t)).
  reflexivity.
Qed.

(** Swapping the second and third vertices changes the computed area in
    sign only: its absolute value is the same float, bit for bit, for every
    input, including overflowing and NaN ones. *)
Theorem signed_area_swap_magnitude_ieee (a b c : vec3 ops) :
  SFabs (calculateSignedArea (Arr3 a c b))
  = SFabs (calculateSignedArea (Arr3 a b c)).
Proof.
  unfold calculateSignedArea. cbn [idx0 idx1 idx2].
  change (@d2f ops) with (convert prec32 emax32).
  change (@f2d ops) with (convert prec64 emax64).
  change (@dmul ops) with (SFmul prec64 emax64).
  change (@fsub ops) with (SFsub prec32 emax32).
  change (@fmul ops) with (SFmul prec32 emax32).
  apply convert_abs, mul_abs_r, convert_abs, sub_swap_abs.
Qed.

End IEEEEdges.
